(** * picsum-photos: request parameters ([internal/params/params.go])

    A shallow embedding of package [params]: the resolution of the path and
    query parameters of an image request ([GetParams] and its helpers), the
    limit checks of [Params.Validate] and the defaulting of
    [Params.Dimensions].

    Conventions.
    - Go's [int] values are carried as [Z]; the package does no arithmetic on
      them (only comparisons and copies), the one place where the machine
      range matters is [strconv.Atoi], which rejects numerals outside it.
    - Go strings are byte strings: [string], one [ascii] per byte.
    - [map[string]T] is a [gmap string T]; reading an absent key gives Go's
      zero value, written out with [default].
    - [*Params] and [*database.Image] are pointers into a heap; a method that
      dereferences them runs in the monad [M] (state = the heap, failure = a
      nil-pointer panic). *)

From Stdlib Require Import ZArith Ascii String Bool List Lia.
From stdpp Require Import base option gmap strings fin_maps.

Local Open Scope string_scope.
Local Open Scope Z_scope.

(* ===================================================================== *)
(** ** The Go library functions the package calls *)
(* ===================================================================== *)

(** [strconv]: decimal numerals of the machine integer type. *)
Module strconv.

(** [strconv.IntSize] on the 64-bit targets the service is built for. *)
Definition IntSize : Z := 64.
Definition maxInt : Z := 2 ^ (IntSize - 1) - 1.
Definition minInt : Z := - 2 ^ (IntSize - 1).

(** [*NumError].Err: the two ways a numeral is refused. *)
Inductive NumError : Set := ErrSyntax | ErrRange.

Definition byte (c : ascii) : Z := Z.of_N (N_of_ascii c).

(** [ch -= '0'; if ch > 9 { syntax error }] on one byte. *)
Definition digit (c : ascii) : option Z :=
  let n := byte c in
  if (48 <=? n) && (n <=? 57) then Some (n - 48) else None.

(** The digit loop [n = n*10 + int(ch)], left to right. *)
Fixpoint digits (s : string) (n : Z) : option Z :=
  match s with
  | EmptyString => Some n
  | String ch s' =>
      match digit ch with
      | Some d => digits s' (n * 10 + d)
      | None => None
      end
  end.

(** [s[0] == '-' || s[0] == '+'] then [s = s[1:]]: the sign and the rest. *)
Definition sign (s : string) : bool * string :=
  match s with
  | String "-" s' => (true, s')
  | String "+" s' => (false, s')
  | _ => (false, s)
  end.

(** [strconv.Atoi]: an optional sign and at least one decimal digit, no
    other byte (base 10 admits no underscore); a value outside the [int]
    range is clamped and reported as [ErrRange]; a malformed numeral gives
    [0] and [ErrSyntax]. The error is [None] for Go's [nil]. *)
Definition Atoi (s : string) : Z * option NumError :=
  let '(neg, ds) := sign s in
  match ds with
  | EmptyString => (0, Some ErrSyntax)
  | _ =>
      match digits ds 0 with
      | None => (0, Some ErrSyntax)
      | Some un =>
          let n := if neg then - un else un in
          if n <? minInt then (minInt, Some ErrRange)
          else if maxInt <? n then (maxInt, Some ErrRange)
          else (n, None)
      end
  end.

(** The decimal numeral of a non-negative integer, most significant digit
    first ([strconv.Itoa]); [fuel] bounds the number of digits, and a
    numeral has no more decimal digits than binary ones. *)
Definition digit_char (d : Z) : ascii := ascii_of_N (Z.to_N (48 + d)).

Fixpoint utoa (fuel : nat) (n : Z) (acc : string) : string :=
  match fuel with
  | O => acc
  | S fuel' =>
      let acc' := String (digit_char (n mod 10)) acc in
      if n <? 10 then acc' else utoa fuel' (n / 10) acc'
  end.

Definition ndigits (n : Z) : nat := S (Z.to_nat (Z.log2 n)).

Definition Itoa (n : Z) : string :=
  if n <? 0 then String "-" (utoa (ndigits (- n)) (- n) EmptyString)
  else utoa (ndigits n) n EmptyString.

End strconv.

(** [strings]: the ASCII part of [strings.ToLower]. *)
Module strings.

(** [c < utf8.RuneSelf] for every byte. *)
Definition isASCII (s : string) : bool :=
  forallb (fun c => strconv.byte c <? 128) (list_ascii_of_string s).

(** ['A' <= c && c <= 'Z'] then [c += 'a' - 'A']. *)
Definition lowerByte (c : ascii) : ascii :=
  let n := strconv.byte c in
  if (65 <=? n) && (n <=? 90) then ascii_of_N (Z.to_N (n + 32)) else c.

Fixpoint mapBytes (f : ascii -> ascii) (s : string) : string :=
  match s with
  | EmptyString => EmptyString
  | String c s' => String (f c) (mapBytes f s')
  end.

End strings.

(** [net/url]: [url.Values] is [map[string][]string]. *)
Module url.

(** [Values.Get]: the first value of the key, [""] when there is none. *)
Definition Get (v : gmap string (list string)) (key : string) : string :=
  match v !! key with
  | Some (s :: _) => s
  | _ => ""
  end.

End url.

(* ===================================================================== *)
(** ** Data model *)
(* ===================================================================== *)

(** The package's three sentinel errors; Go's [nil] error is [None]. *)
Inductive error : Set :=
  | ErrInvalidSize
  | ErrInvalidBlurAmount
  | ErrInvalidFileExtension.

Definition defaultBlurAmount : Z := 5.
Definition minBlurAmount : Z := 1.
Definition maxBlurAmount : Z := 10.
Definition maxImageSize : Z := 5000.

(** [Params] contains all the parameters for a request. *)
Record Params := mkParams {
  Width : Z;
  Height : Z;
  Blur : bool;
  BlurAmount : Z;
  Grayscale : bool;
  Extension : string
}.

Module database.

(** Modelled from the spec: [database.Image] is declared in another package
    of the repository; this package reads its natural [Width] and [Height]
    and nothing else ("exposes natural Width and Height integers"). *)
Record Image := mkImage {
  Width : Z;
  Height : Z
}.

End database.

(** What the package reads of [*http.Request]: the path variables the router
    matched ([mux.Vars(r)]) and the parsed query string ([r.URL.Query()]). *)
Record Request := mkRequest {
  mux_Vars : gmap string string;
  URL_Query : gmap string (list string)
}.

(** Pointers: [nil] or the address of a cell of the pointee's type. *)
Inductive ptr (A : Type) : Type :=
  | nil
  | addr (l : positive).
Arguments nil {A}.
Arguments addr {A} l.

(** The heap: the [Params] and the [database.Image] objects alive. *)
Record Heap := mkHeap {
  params_cells : gmap positive Params;
  image_cells : gmap positive database.Image
}.

(** Computations over the heap; [None] is a run-time panic. *)
Definition M (A : Type) : Type := Heap -> option (A * Heap).

#[global] Instance M_ret : MRet M := fun A a h => Some (a, h).
#[global] Instance M_bind : MBind M := fun A B f m h =>
  match m h with
  | Some (a, h') => f a h'
  | None => None
  end.

(** [p.f] for [p *Params]: panics on [nil]. *)
Definition rdP {A} (f : Params -> A) (p : ptr Params) : M A := fun h =>
  match p with
  | nil => None
  | addr l =>
      match params_cells h !! l with
      | Some v => Some (f v, h)
      | None => None
      end
  end.

(** [image.f] for [image *database.Image]: panics on [nil]. *)
Definition rdI {A} (f : database.Image -> A) (image : ptr database.Image) : M A :=
  fun h =>
  match image with
  | nil => None
  | addr l =>
      match image_cells h !! l with
      | Some v => Some (f v, h)
      | None => None
      end
  end.

(** [&Params{...}]: a fresh cell holding the composite literal. *)
Definition new (v : Params) : M (ptr Params) := fun h =>
  let l := fresh (dom (params_cells h)) in
  Some (addr l, mkHeap (<[l := v]> (params_cells h)) (image_cells h)).

(** Go's [a && b]: [b] is evaluated only when [a] is true. *)
Definition andM (a b : M bool) : M bool :=
  x ← a; if x : bool then b else mret false.

(** [p] points to [v] in [h]. *)
Definition pointsP (h : Heap) (p : ptr Params) (v : Params) : Prop :=
  match p with
  | nil => False
  | addr l => params_cells h !! l = Some v
  end.

Definition pointsI (h : Heap) (i : ptr database.Image) (v : database.Image) : Prop :=
  match i with
  | nil => False
  | addr l => image_cells h !! l = Some v
  end.

(* ===================================================================== *)
(** ** Sample requests and heaps *)
(* ===================================================================== *)

(** Stand-in for the Unicode path of [strings.ToLower] when running the
    package on requests whose variables are ASCII (the path is not taken). *)
Definition ascii_only : string -> string := fun s => s.

(** A [size] next to [width] and [height], an upper-case extension, and the
    query [?blur=3&grayscale]. *)
Definition req_size : Request :=
  mkRequest (<["size" := "300"]> (<["width" := "10"]> (<["height" := "20"]>
              (<["extension" := ".WEBP"]> ∅))))
            (<["blur" := ["3"]]> (<["grayscale" := [""]]> ∅)).

(** A [width] but no [height], and a [size] that is no numeral. *)
Definition req_no_height : Request :=
  mkRequest (<["size" := "abc"]> (<["width" := "200"]> ∅)) ∅.

(** [width] and [height], the extension [.png], and the query [?blur=abc]. *)
Definition req_png : Request :=
  mkRequest (<["width" := "200"]> (<["height" := "300"]>
              (<["extension" := ".png"]> ∅)))
            (<["blur" := ["abc"]]> ∅).

Definition params_native : Params := mkParams 6000 4000 true 3 false ".jpg".
Definition params_zero : Params := mkParams 0 200 false 0 false ".jpg".
Definition params_negative : Params := mkParams (-5) (-1) false 0 true ".webp".
Definition params_blur11 : Params := mkParams 200 300 true 11 false ".jpg".

Definition image_6000 : database.Image := database.mkImage 6000 4000.
Definition image_3000 : database.Image := database.mkImage 3000 2000.
Definition image_800 : database.Image := database.mkImage 800 600.

Definition heap0 : Heap := mkHeap ∅ ∅.

Definition heap1 : Heap :=
  mkHeap (<[1%positive := params_native]> (<[2%positive := params_zero]>
           (<[3%positive := params_negative]>
           (<[4%positive := params_blur11]> ∅))))
         (<[1%positive := image_6000]> (<[2%positive := image_3000]>
           (<[3%positive := image_800]> ∅))).

(** Only a [size], with a repeated [blur] whose first value is 11. *)
Definition req_blur11 : Request :=
  mkRequest (<["size" := "300"]> ∅) (<["blur" := ["11"; "3"]]> ∅).

(** Only [size=0]: the natural size is asked for. *)
Definition req_size0 : Request := mkRequest (<["size" := "0"]> ∅) ∅.

(** [req_size] with a path variable and a query parameter the package does
    not know. *)
Definition req_size_more : Request :=
  mkRequest (<["id" := "7"]> (mux_Vars req_size))
            (<["hmac" := ["x"]]> (URL_Query req_size)).

(** [params_zero] with another grayscale flag, extension and (unused) blur
    amount. *)
Definition params_zero_gray : Params := mkParams 0 200 false 7 true ".webp".

Definition params_req_size : Params := mkParams 300 300 true 3 true ".webp".

(** [heap1] with one more [Params] object at the next free address. *)
Definition heap1_with (v : Params) : Heap :=
  mkHeap (<[5%positive := v]> (params_cells heap1)) (image_cells heap1).



(* ===================================================================== *)
(** ** Package [params] *)
(* ===================================================================== *)

Section params.

(** [strings.ToLower] on a string with a byte outside ASCII is
    [strings.Map(unicode.ToLower, s)], which decodes UTF-8 and consults the
    Unicode case tables; that part is left open. *)
Variable unicode_Map_ToLower : string -> string.

Definition ToLower (s : string) : string :=
  if strings.isASCII s then strings.mapBytes strings.lowerByte s
  else unicode_Map_ToLower s.

(** [intParam] tries to get a param and convert it to an Integer. *)
Definition intParam (r : Request) (name : string) : Z * bool :=
  match mux_Vars r !! name with
  | Some val =>
      let '(val, err) := strconv.Atoi val in
      (val, bool_decide (err = None))
  | None => (-1, false)
  end.

(** [getSize] gets the image size from the size or the width/height path
    params, and validates it. *)
Definition getSize (r : Request) : Z * Z * option error :=
  let '(size, ok) := intParam r "size" in
  if ok then (size, size, None)
  else
    let '(width, ok) := intParam r "width" in
    if negb ok then (-1, -1, Some ErrInvalidSize)
    else
      let '(height, ok) := intParam r "height" in
      if negb ok then (-1, -1, Some ErrInvalidSize)
      else (width, height, None).

(** [getFileExtension] gets the file extension (if present) from the path
    params, and validates it. *)
Definition getFileExtension (r : Request) : string * option error :=
  let val := ToLower (default "" (mux_Vars r !! "extension")) in
  let val := if String.eqb val "" then ".jpg" else val in
  if negb (String.eqb val ".jpg") && negb (String.eqb val ".webp")
  then ("", Some ErrInvalidFileExtension)
  else (val, None).

(** [getQueryParams] returns whether the grayscale and blur queryparams
    are present. The named results start at their zero values. *)
Definition getQueryParams (r : Request) : bool * bool * Z :=
  let grayscale :=
    match URL_Query r !! "grayscale" with
    | Some _ => true
    | None => false
    end in
  match URL_Query r !! "blur" with
  | Some _ =>
      let blur := true in
      let blurAmount := defaultBlurAmount in
      match strconv.Atoi (url.Get (URL_Query r) "blur") with
      | (val, None) => (grayscale, blur, val)
      | (_, Some _) => (grayscale, blur, blurAmount)
      end
  | None => (grayscale, false, 0)
  end.

(** [GetParams] parses and returns all the path and query parameters. *)
Definition GetParams (r : Request) : M (ptr Params * option error) :=
  let '(width, height, err) := getSize r in
  match err with
  | Some e => mret (nil, Some e)
  | None =>
      let '(extension, err) := getFileExtension r in
      match err with
      | Some e => mret (nil, Some e)
      | None =>
          let '(grayscale, blur, blurAmount) := getQueryParams r in
          params ← new {| Width := width;
                          Height := height;
                          Blur := blur;
                          BlurAmount := blurAmount;
                          Grayscale := grayscale;
                          Extension := extension |};
          mret (params, None)
      end
  end.

(** [Validate] checks that the size and blur amounts are within the
    allowed limits. *)
Definition Validate (p : ptr Params) (image : ptr database.Image)
  : M (option error) :=
  c ← andM (w ← rdP Width p; mret (w >? maxImageSize))
           (w ← rdP Width p; iw ← rdI database.Width image;
            mret (negb (w =? iw)));
  if c : bool then mret (Some ErrInvalidSize) else
  c ← andM (h ← rdP Height p; mret (h >? maxImageSize))
           (h ← rdP Height p; ih ← rdI database.Height image;
            mret (negb (h =? ih)));
  if c : bool then mret (Some ErrInvalidSize) else
  c ← andM (rdP Blur p) (b ← rdP BlurAmount p; mret (b <? minBlurAmount));
  if c : bool then mret (Some ErrInvalidBlurAmount) else
  c ← andM (rdP Blur p) (b ← rdP BlurAmount p; mret (b >? maxBlurAmount));
  if c : bool then mret (Some ErrInvalidBlurAmount) else
  mret None.

(** [Dimensions] returns the image dimensions based on the given params. *)
Definition Dimensions (p : ptr Params) (databaseImage : ptr database.Image)
  : M (Z * Z) :=
  width ← rdP Width p;
  height ← rdP Height p;
  width ← (if width =? 0 then rdI database.Width databaseImage
           else mret width);
  height ← (if height =? 0 then rdI database.Height databaseImage
            else mret height);
  mret (width, height).

(** A path variable [name] is present and parses as the integer [n]. *)
Definition hasInt (r : Request) (name : string) (n : Z) : Prop :=
  exists s, mux_Vars r !! name = Some s /\ strconv.Atoi s = (n, None).

(** A computation that never changes the heap it runs in. *)
Definition read_only {A} (m : M A) : Prop :=
  forall h a h', m h = Some (a, h') -> h' = h.

(* =================================================================== *)
(** ** Library functions: sanity checks and the numeral round trip *)
(* =================================================================== *)

Example Atoi_200 : strconv.Atoi "200" = (200, None).
Proof. reflexivity. Qed.

Example Atoi_neg : strconv.Atoi "-7" = (-7, None).
Proof. reflexivity. Qed.

Example Atoi_plus : strconv.Atoi "+12" = (12, None).
Proof. reflexivity. Qed.

Example Atoi_empty : strconv.Atoi "" = (0, Some strconv.ErrSyntax).
Proof. reflexivity. Qed.

Example Atoi_sign_only : strconv.Atoi "+" = (0, Some strconv.ErrSyntax).
Proof. reflexivity. Qed.

Example Atoi_trailing : strconv.Atoi "12a" = (0, Some strconv.ErrSyntax).
Proof. reflexivity. Qed.

Example Atoi_overflow :
  strconv.Atoi "9223372036854775808"
  = (9223372036854775807, Some strconv.ErrRange).
Proof. reflexivity. Qed.

Example Atoi_min :
  strconv.Atoi "-9223372036854775808" = (-9223372036854775808, None).
Proof. reflexivity. Qed.

Example Itoa_neg : strconv.Itoa (-5000) = "-5000".
Proof. reflexivity. Qed.

Example Itoa_zero : strconv.Itoa 0 = "0".
Proof. reflexivity. Qed.

Lemma digit_digit_char d :
  0 <= d < 10 -> strconv.digit (strconv.digit_char d) = Some d.
Proof.
  intros Hd.
  assert (Hc : d = 0 \/ d = 1 \/ d = 2 \/ d = 3 \/ d = 4 \/ d = 5 \/ d = 6
               \/ d = 7 \/ d = 8 \/ d = 9) by lia.
  repeat (destruct Hc as [-> | Hc]; [reflexivity |]).
  subst d. reflexivity.
Qed.

Lemma digit_char_not_sign d :
  0 <= d < 10 -> forall s,
  strconv.sign (String (strconv.digit_char d) s)
  = (false, String (strconv.digit_char d) s).
Proof.
  intros Hd s.
  assert (Hc : d = 0 \/ d = 1 \/ d = 2 \/ d = 3 \/ d = 4 \/ d = 5 \/ d = 6
               \/ d = 7 \/ d = 8 \/ d = 9) by lia.
  repeat (destruct Hc as [-> | Hc]; [reflexivity |]).
  subst d. reflexivity.
Qed.

(** Reading back what [utoa] wrote: the digits of [n] in front of [acc]
    continue the running value [k] as [k * 10^digits(n) + n] would. *)
Lemma digits_utoa fuel : forall n acc k,
  0 <= n < 2 ^ Z.of_nat fuel -> (0 < fuel)%nat ->
  exists m, 0 < m /\ k * m <= k * m + n < (k + 1) * m /\
    (forall k', strconv.digits (strconv.utoa fuel n acc) k'
                = strconv.digits acc (k' * m + n)) /\
    exists c s', strconv.utoa fuel n acc = String (strconv.digit_char c) s'
                 /\ 0 <= c < 10.
Proof.
  induction fuel as [| fuel IH]; intros n acc k Hn Hf; [lia |].
  cbn [strconv.utoa].
  destruct (n <? 10) eqn:Hlt.
  - apply Z.ltb_lt in Hlt. exists 10. split; [lia |]. split; [lia |]. split.
    + intros k'. cbn [strconv.digits].
      rewrite Z.mod_small by lia.
      rewrite digit_digit_char by lia. reflexivity.
    + exists (n mod 10), acc. split; [reflexivity |].
      apply Z.mod_pos_bound. lia.
  - apply Z.ltb_ge in Hlt.
    assert (Hfuel : (0 < fuel)%nat).
    { destruct fuel; [| lia]. simpl in Hn. lia. }
    assert (Hdiv : 0 <= n / 10 < 2 ^ Z.of_nat fuel).
    { split; [apply Z.div_pos; lia |].
      rewrite Nat2Z.inj_succ, Z.pow_succ_r in Hn by lia.
      apply Z.div_lt_upper_bound; lia. }
    destruct (IH (n / 10) (String (strconv.digit_char (n mod 10)) acc) k
                Hdiv Hfuel) as (m & Hm & Hb & Hd & c & s' & Hs & Hc).
    exists (m * 10). split; [lia |]. split.
    + pose proof (Z.div_mod n 10 ltac:(lia)) as E.
      pose proof (Z.mod_pos_bound n 10 ltac:(lia)) as B. nia.
    + split.
      * intros k'. rewrite Hd. cbn [strconv.digits].
        rewrite digit_digit_char by (apply Z.mod_pos_bound; lia).
        f_equal.
        pose proof (Z.div_mod n 10 ltac:(lia)) as E. lia.
      * exists c, s'. split; [exact Hs | exact Hc].
Qed.

Lemma ndigits_bound n : 0 <= n -> n < 2 ^ Z.of_nat (strconv.ndigits n).
Proof.
  intros Hn. unfold strconv.ndigits.
  rewrite Nat2Z.inj_succ, Z2Nat.id by apply Z.log2_nonneg.
  destruct (Z.eq_dec n 0) as [-> | Hz]; [reflexivity |].
  apply Z.log2_spec. lia.
Qed.

(** [strconv.Atoi] reads back the numeral of every machine integer. *)
Lemma Atoi_Itoa n :
  strconv.minInt <= n <= strconv.maxInt ->
  strconv.Atoi (strconv.Itoa n) = (n, None).
Proof.
  intros Hn. unfold strconv.Itoa.
  destruct (n <? 0) eqn:Hneg.
  - apply Z.ltb_lt in Hneg.
    destruct (digits_utoa (strconv.ndigits (- n)) (- n) EmptyString 0)
      as (m & Hm & Hb & Hd & c & s' & Hs & Hc).
    { split; [lia | apply ndigits_bound; lia]. }
    { unfold strconv.ndigits. lia. }
    unfold strconv.Atoi. cbn [strconv.sign].
    rewrite Hd. rewrite Hs at 1. cbn [strconv.digits]. cbn beta iota.
    replace (0 * m + - n) with (- n) by lia.
    rewrite Z.opp_involutive.
    destruct (n <? strconv.minInt) eqn:E1; [apply Z.ltb_lt in E1; lia |].
    destruct (strconv.maxInt <? n) eqn:E2; [apply Z.ltb_lt in E2; lia |].
    reflexivity.
  - apply Z.ltb_ge in Hneg.
    destruct (digits_utoa (strconv.ndigits n) n EmptyString 0)
      as (m & Hm & Hb & Hd & c & s' & Hs & Hc).
    { split; [lia | apply ndigits_bound; lia]. }
    { unfold strconv.ndigits. lia. }
    unfold strconv.Atoi.
    rewrite Hs at 1. rewrite digit_char_not_sign by exact Hc.
    rewrite <- Hs. rewrite Hd. cbn [strconv.digits].
    replace (0 * m + n) with n by lia.
    destruct (n <? strconv.minInt) eqn:E1; [apply Z.ltb_lt in E1; lia |].
    destruct (strconv.maxInt <? n) eqn:E2; [apply Z.ltb_lt in E2; lia |].
    reflexivity.
Qed.

(* =================================================================== *)
(** ** Running heap computations *)
(* =================================================================== *)

Lemma bind_run {A B} (m : M A) (f : A -> M B) h :
  (m ≫= f) h = match m h with
               | Some (a, h') => f a h'
               | None => None
               end.
Proof. reflexivity. Qed.

Lemma ret_run {A} (a : A) h : mret (M := M) a h = Some (a, h).
Proof. reflexivity. Qed.

Lemma rdP_run {A} (f : Params -> A) h p v :
  pointsP h p v -> rdP f p h = Some (f v, h).
Proof.
  destruct p as [| l]; simpl; [tauto |].
  intros E. now rewrite E.
Qed.

Lemma rdI_run {A} (f : database.Image -> A) h i v :
  pointsI h i v -> rdI f i h = Some (f v, h).
Proof.
  destruct i as [| l]; simpl; [tauto |].
  intros E. now rewrite E.
Qed.

Lemma andM_run (a b : M bool) h :
  andM a b h = match a h with
               | Some (true, h') => b h'
               | Some (false, h') => Some (false, h')
               | None => None
               end.
Proof.
  unfold andM. rewrite bind_run.
  destruct (a h) as [[[] h'] |]; reflexivity.
Qed.

(** Unfold one monadic step at the head of the goal, reading the cells of
    [p] and [i] from the hypotheses [Hp] and [Hi]. *)
Ltac step Hp Hi :=
  first [ rewrite bind_run
        | rewrite andM_run
        | rewrite ret_run
        | rewrite (rdP_run _ _ _ _ Hp)
        | rewrite (rdI_run _ _ _ _ Hi) ].

(** [Validate] on live objects: the four checks in order, heap untouched. *)
Lemma Validate_run h p image pv iv :
  pointsP h p pv -> pointsI h image iv ->
  Validate p image h =
  Some (if (Width pv >? maxImageSize)
           && negb (Width pv =? database.Width iv)
        then Some ErrInvalidSize
        else if (Height pv >? maxImageSize)
                && negb (Height pv =? database.Height iv)
        then Some ErrInvalidSize
        else if Blur pv && (BlurAmount pv <? minBlurAmount)
        then Some ErrInvalidBlurAmount
        else if Blur pv && (BlurAmount pv >? maxBlurAmount)
        then Some ErrInvalidBlurAmount
        else None, h).
Proof.
  intros Hp Hi. unfold Validate.
  destruct (Width pv >? maxImageSize) eqn:W1,
           (negb (Width pv =? database.Width iv)) eqn:W2,
           (Height pv >? maxImageSize) eqn:H1,
           (negb (Height pv =? database.Height iv)) eqn:H2,
           (Blur pv) eqn:B,
           (BlurAmount pv <? minBlurAmount) eqn:B1,
           (BlurAmount pv >? maxBlurAmount) eqn:B2;
    repeat (step Hp Hi; cbn beta iota;
            rewrite ?W1, ?W2, ?H1, ?H2, ?B, ?B1, ?B2);
    reflexivity.
Qed.

(** [Dimensions] on live objects. *)
Lemma Dimensions_run h p image pv iv :
  pointsP h p pv -> pointsI h image iv ->
  Dimensions p image h =
  Some ((if Width pv =? 0 then database.Width iv else Width pv,
         if Height pv =? 0 then database.Height iv else Height pv), h).
Proof.
  intros Hp Hi. unfold Dimensions.
  destruct (Width pv =? 0) eqn:W0, (Height pv =? 0) eqn:H0;
    repeat (step Hp Hi; cbn beta iota; rewrite ?W0, ?H0);
    reflexivity.
Qed.

(* =================================================================== *)
(** ** Read-only computations *)
(* =================================================================== *)

Lemma read_only_ret {A} (a : A) : read_only (mret a).
Proof. intros h a' h' E. unfold mret, M_ret in E. congruence. Qed.

Lemma read_only_bind {A B} (m : M A) (f : A -> M B) :
  read_only m -> (forall a, read_only (f a)) -> read_only (m ≫= f).
Proof.
  intros Hm Hf h b h' E. rewrite bind_run in E.
  destruct (m h) as [[a h1] |] eqn:E1; [| discriminate].
  apply Hm in E1. subst h1. eapply Hf, E.
Qed.

Lemma read_only_rdP {A} (f : Params -> A) p : read_only (rdP f p).
Proof.
  intros h a h' E. unfold rdP in E.
  destruct p as [| l]; [discriminate |].
  destruct (params_cells h !! l); congruence.
Qed.

Lemma read_only_rdI {A} (f : database.Image -> A) i : read_only (rdI f i).
Proof.
  intros h a h' E. unfold rdI in E.
  destruct i as [| l]; [discriminate |].
  destruct (image_cells h !! l); congruence.
Qed.

Lemma read_only_if {A} (c : bool) (m1 m2 : M A) :
  read_only m1 -> read_only m2 -> read_only (if c then m1 else m2).
Proof. now destruct c. Qed.

Lemma read_only_andM a b : read_only a -> read_only b -> read_only (andM a b).
Proof.
  intros Ha Hb. unfold andM. apply read_only_bind; [exact Ha |].
  intros x. apply read_only_if; [exact Hb | apply read_only_ret].
Qed.

Create HintDb ro discriminated.
#[local] Hint Resolve read_only_ret read_only_rdP read_only_rdI : ro.
#[local] Hint Extern 2 (read_only (_ ≫= _)) =>
  apply read_only_bind; [| intros ?] : ro.
#[local] Hint Extern 2 (read_only (andM _ _)) => apply read_only_andM : ro.
#[local] Hint Extern 2 (read_only (if _ then _ else _)) =>
  apply read_only_if : ro.

(** No run of [Validate] changes the heap, whatever the pointers are. *)
Lemma Validate_read_only p image : read_only (Validate p image).
Proof. unfold Validate. auto 30 with ro. Qed.

Lemma Dimensions_read_only p image : read_only (Dimensions p image).
Proof. unfold Dimensions. auto 30 with ro. Qed.

(* =================================================================== *)
(** ** [Validate] and [Dimensions] *)
(* =================================================================== *)

Ltac bools :=
  repeat match goal with
    | H : (_ && _) = true |- _ => apply andb_true_iff in H; destruct H
    | H : (_ && _) = false |- _ => apply andb_false_iff in H; destruct H
    | H : negb _ = true |- _ => apply negb_true_iff in H
    | H : negb _ = false |- _ => apply negb_false_iff in H
    | H : (_ >? _) = true |- _ => apply Z.gtb_gt in H
    | H : (_ >? _) = false |- _ => rewrite Z.gtb_ltb in H; apply Z.ltb_ge in H
    | H : (_ <? _) = true |- _ => apply Z.ltb_lt in H
    | H : (_ <? _) = false |- _ => apply Z.ltb_ge in H
    | H : (_ =? _) = true |- _ => apply Z.eqb_eq in H
    | H : (_ =? _) = false |- _ => apply Z.eqb_neq in H
    end.

Ltac cases :=
  repeat match goal with
    | |- context [if ?c then _ else _] =>
        let E := fresh "E" in destruct c eqn:E
    | H : context [if ?c then _ else _] |- _ =>
        let E := fresh "E" in destruct c eqn:E
    end;
  bools; unfold maxImageSize, minBlurAmount, maxBlurAmount in *.

(** C1. [Validate] answers [ErrInvalidSize] as soon as the width is above
    5000 and differs from the image's natural width, or the height is above
    5000 and differs from the natural height. Hence a request for exactly
    the natural size is never refused for its size, however large, and
    after a [Validate] without error each of width and height is at most
    5000 or equal to the natural dimension. *)
Theorem Validate_size_ceiling h p image pv iv :
  pointsP h p pv -> pointsI h image iv ->
  ((Width pv > 5000 /\ Width pv <> database.Width iv) \/
   (Height pv > 5000 /\ Height pv <> database.Height iv) ->
   Validate p image h = Some (Some ErrInvalidSize, h)) /\
  (Width pv = database.Width iv -> Height pv = database.Height iv ->
   exists e, Validate p image h = Some (e, h) /\ e <> Some ErrInvalidSize) /\
  (Validate p image h = Some (None, h) ->
   (Width pv <= 5000 \/ Width pv = database.Width iv) /\
   (Height pv <= 5000 \/ Height pv = database.Height iv)).
Proof.
  intros Hp Hi. rewrite (Validate_run _ _ _ _ _ Hp Hi).
  split; [| split].
  - intros Hover. cases; try reflexivity; exfalso; lia.
  - intros HW HH. eexists. split; [reflexivity |].
    cases; try discriminate; exfalso; lia.
  - intros E. cases; try discriminate; lia.
Qed.

(** C6. With blur requested and the size checks passed, [Validate] answers
    [ErrInvalidBlurAmount] exactly when the blur amount is below 1 or above
    10, and no error when it lies in [1, 10]. *)
Theorem Validate_blur_range h p image pv iv :
  pointsP h p pv -> pointsI h image iv ->
  Blur pv = true ->
  (Width pv <= 5000 \/ Width pv = database.Width iv) ->
  (Height pv <= 5000 \/ Height pv = database.Height iv) ->
  (Validate p image h = Some (Some ErrInvalidBlurAmount, h)
   <-> BlurAmount pv < 1 \/ BlurAmount pv > 10) /\
  (1 <= BlurAmount pv <= 10 -> Validate p image h = Some (None, h)).
Proof.
  intros Hp Hi HB HW HH. rewrite (Validate_run _ _ _ _ _ Hp Hi), HB.
  split; [split |].
  - intros E. cases; try discriminate; lia.
  - intros Hout. cases; try reflexivity; exfalso; lia.
  - intros Hin. cases; try reflexivity; exfalso; lia.
Qed.

(** C7. [Dimensions] always returns on live objects, with the requested
    width and height, a component equal to 0 replaced by the image's
    natural one; any other value, also one above 5000, is passed through
    as it is. *)
Theorem Dimensions_defaults h p image pv iv :
  pointsP h p pv -> pointsI h image iv ->
  exists width height,
    Dimensions p image h = Some ((width, height), h) /\
    (Width pv = 0 -> width = database.Width iv) /\
    (Width pv <> 0 -> width = Width pv) /\
    (Height pv = 0 -> height = database.Height iv) /\
    (Height pv <> 0 -> height = Height pv).
Proof.
  intros Hp Hi. rewrite (Dimensions_run _ _ _ _ _ Hp Hi).
  eexists _, _. split; [reflexivity |].
  cases; repeat split; intros; congruence.
Qed.

(** C9. [Validate] has no lower bound on the dimensions: without blur and
    with width and height at most 5000 (zero and negative values too) it
    returns no error for every image, and [Dimensions] passes a negative
    width or height through unchanged. *)
Theorem Validate_no_lower_bound h p image pv iv :
  pointsP h p pv -> pointsI h image iv ->
  Blur pv = false -> Width pv <= 5000 -> Height pv <= 5000 ->
  Validate p image h = Some (None, h) /\
  exists width height,
    Dimensions p image h = Some ((width, height), h) /\
    (Width pv < 0 -> width = Width pv) /\
    (Height pv < 0 -> height = Height pv).
Proof.
  intros Hp Hi HB HW HH.
  rewrite (Validate_run _ _ _ _ _ Hp Hi), (Dimensions_run _ _ _ _ _ Hp Hi), HB.
  split.
  - cases; try reflexivity; exfalso; lia.
  - eexists _, _. split; [reflexivity |].
    cases; split; intros; lia.
Qed.

(** Below the ceiling and without blur the image is not even read:
    [Validate] passes with a nil image. *)
Lemma Validate_small_ignores_image h p pv image :
  pointsP h p pv ->
  Blur pv = false -> Width pv <= 5000 -> Height pv <= 5000 ->
  Validate p image h = Some (None, h).
Proof.
  intros Hp HB HW HH. unfold Validate.
  assert (W1 : (Width pv >? maxImageSize) = false)
    by (unfold maxImageSize; lia).
  assert (H1 : (Height pv >? maxImageSize) = false)
    by (unfold maxImageSize; lia).
  repeat (step Hp Hp; cbn beta iota; rewrite ?W1, ?H1, ?HB).
  reflexivity.
Qed.

(** C10. [Validate] and [Dimensions] only read: after either call the heap
    is the one before it, so [p] and [image] still point to the same
    field values. *)
Theorem Validate_Dimensions_frame h p image pv iv :
  pointsP h p pv -> pointsI h image iv ->
  (exists e h', Validate p image h = Some (e, h') /\
                h' = h /\ pointsP h' p pv /\ pointsI h' image iv) /\
  (exists d h', Dimensions p image h = Some (d, h') /\
                h' = h /\ pointsP h' p pv /\ pointsI h' image iv).
Proof.
  intros Hp Hi. split.
  - destruct (Validate p image h) as [[e h'] |] eqn:E.
    + pose proof (Validate_read_only _ _ _ _ _ E) as ->. eauto 10.
    + rewrite (Validate_run _ _ _ _ _ Hp Hi) in E. discriminate.
  - destruct (Dimensions p image h) as [[d h'] |] eqn:E.
    + pose proof (Dimensions_read_only _ _ _ _ _ E) as ->. eauto 10.
    + rewrite (Dimensions_run _ _ _ _ _ Hp Hi) in E. discriminate.
Qed.

(* =================================================================== *)
(** ** Resolving the request *)
(* =================================================================== *)

Lemma intParam_true r name n :
  intParam r name = (n, true) <-> hasInt r name n.
Proof.
  unfold intParam, hasInt. split.
  - destruct (mux_Vars r !! name) as [s |]; [| discriminate].
    destruct (strconv.Atoi s) as [v err] eqn:E.
    case_bool_decide as Herr; intros [= <-]; subst err. eauto.
  - intros (s & -> & ->). reflexivity.
Qed.

Lemma intParam_false r name :
  snd (intParam r name) = false <-> ~ exists n, hasInt r name n.
Proof.
  split.
  - intros E (n & Hn). apply intParam_true in Hn. rewrite Hn in E.
    discriminate.
  - intros Hno. destruct (intParam r name) as [n []] eqn:E; [| reflexivity].
    exfalso. apply Hno. exists n. now apply intParam_true.
Qed.

Lemma new_run v h :
  let l := fresh (dom (params_cells h)) in
  new v h = Some (addr l, mkHeap (<[l := v]> (params_cells h)) (image_cells h))
  /\ params_cells h !! l = None.
Proof.
  intros l. split; [reflexivity |].
  apply not_elem_of_dom. apply is_fresh.
Qed.

Lemma GetParams_size_err r h width height e :
  getSize r = (width, height, Some e) ->
  GetParams r h = Some ((nil, Some e), h).
Proof. intros E. unfold GetParams. rewrite E. reflexivity. Qed.

Lemma GetParams_ext_err r h width height extension e :
  getSize r = (width, height, None) ->
  getFileExtension r = (extension, Some e) ->
  GetParams r h = Some ((nil, Some e), h).
Proof. intros E1 E2. unfold GetParams. rewrite E1, E2. reflexivity. Qed.

Lemma GetParams_ok r h width height extension grayscale blur blurAmount :
  getSize r = (width, height, None) ->
  getFileExtension r = (extension, None) ->
  getQueryParams r = (grayscale, blur, blurAmount) ->
  let v := mkParams width height blur blurAmount grayscale extension in
  let l := fresh (dom (params_cells h)) in
  GetParams r h
  = Some ((addr l, None), mkHeap (<[l := v]> (params_cells h)) (image_cells h)).
Proof.
  intros E1 E2 E3. unfold GetParams. rewrite E1, E2, E3. reflexivity.
Qed.

(** A successful [GetParams] returns a pointer to a [Params] built from
    the three resolvers. *)
Lemma GetParams_success r h p h' :
  GetParams r h = Some ((p, None), h') ->
  exists v, pointsP h' p v /\
    getSize r = (Width v, Height v, None) /\
    getFileExtension r = (Extension v, None) /\
    getQueryParams r = (Grayscale v, Blur v, BlurAmount v).
Proof.
  destruct (getSize r) as [[width height] [e |]] eqn:E1.
  { rewrite (GetParams_size_err _ _ _ _ _ E1). discriminate. }
  destruct (getFileExtension r) as [extension [e |]] eqn:E2.
  { rewrite (GetParams_ext_err _ _ _ _ _ _ E1 E2). discriminate. }
  destruct (getQueryParams r) as [[grayscale blur] blurAmount] eqn:E3.
  rewrite (GetParams_ok _ h _ _ _ _ _ _ E1 E2 E3).
  intros [= <- <-].
  exists (mkParams width height blur blurAmount grayscale extension).
  split; [apply lookup_insert_eq | auto].
Qed.

(** C2. When the path variables hold a [size] that parses as the integer
    [S], size resolution gives width = height = [S], whatever [width] and
    [height] variables the request has besides; the [Params] built from it
    carry that width and height. *)
Theorem getSize_size_first r S :
  hasInt r "size" S ->
  getSize r = (S, S, None) /\
  forall h p h',
    GetParams r h = Some ((p, None), h') ->
    exists v, pointsP h' p v /\ Width v = S /\ Height v = S.
Proof.
  intros HS. apply intParam_true in HS.
  assert (E : getSize r = (S, S, None)).
  { unfold getSize. rewrite HS. reflexivity. }
  split; [exact E |].
  intros h p h' Hrun.
  destruct (GetParams_success _ _ _ _ Hrun) as (v & Hv & Hsz & _).
  exists v. rewrite E in Hsz. injection Hsz as <- <-. auto.
Qed.

(** C3. When no [size] variable parses as an integer, size resolution
    fails with [ErrInvalidSize] if [width] or [height] is missing or does
    not parse; [GetParams] then returns the nil pointer with that error,
    and has allocated nothing. *)
Theorem getSize_needs_width_height r :
  (~ exists n, hasInt r "size" n) ->
  (~ exists n, hasInt r "width" n) \/ (~ exists n, hasInt r "height" n) ->
  getSize r = (-1, -1, Some ErrInvalidSize) /\
  forall h, GetParams r h = Some ((nil, Some ErrInvalidSize), h).
Proof.
  intros Hs Hwh. apply intParam_false in Hs.
  assert (E : getSize r = (-1, -1, Some ErrInvalidSize)).
  { unfold getSize.
    destruct (intParam r "size") as [size ok]. simpl in Hs. subst ok.
    destruct (intParam r "width") as [width []] eqn:Ew; [| reflexivity].
    destruct (intParam r "height") as [height []] eqn:Eh; [| reflexivity].
    exfalso. destruct Hwh as [Hw | Hh].
    - apply Hw. exists width. now apply intParam_true.
    - apply Hh. exists height. now apply intParam_true. }
  split; [exact E |].
  intros h. exact (GetParams_size_err _ _ _ _ _ E).
Qed.

(** With integer [width] and [height] and no parsable [size], those two
    are the result (the other branch of the resolution). *)
Lemma getSize_width_height r width height :
  (~ exists n, hasInt r "size" n) ->
  hasInt r "width" width -> hasInt r "height" height ->
  getSize r = (width, height, None).
Proof.
  intros Hs Hw Hh. apply intParam_false in Hs.
  apply intParam_true in Hw. apply intParam_true in Hh.
  unfold getSize.
  destruct (intParam r "size") as [size ok]. simpl in Hs. subst ok.
  rewrite Hw, Hh. reflexivity.
Qed.

(** For every machine integer [S], a request whose only path variable is
    [size], written in decimal, resolves to width = height = [S]. *)
Lemma getSize_only_size S q :
  strconv.minInt <= S <= strconv.maxInt ->
  getSize (mkRequest {[ "size" := strconv.Itoa S ]} q) = (S, S, None).
Proof.
  intros HS. unfold getSize, intParam. cbn [mux_Vars].
  rewrite lookup_singleton_eq, (Atoi_Itoa _ HS). reflexivity.
Qed.

Example ToLower_WEBP : ToLower ".WEBP" = ".webp".
Proof. reflexivity. Qed.

Example ToLower_mixed : ToLower ".JpG" = ".jpg".
Proof. reflexivity. Qed.

Lemma ToLower_empty : ToLower "" = "".
Proof. reflexivity. Qed.

Lemma byte_ascii_of n : 0 <= n < 256 -> strconv.byte (ascii_of_N (Z.to_N n)) = n.
Proof.
  intros Hn. unfold strconv.byte.
  rewrite N_ascii_embedding by lia. lia.
Qed.

(** The ASCII path of [ToLower] leaves no upper-case letter, keeps the
    length, and changes nothing but upper-case letters. *)
Lemma lowerByte_not_upper c :
  ~ (65 <= strconv.byte (strings.lowerByte c) <= 90).
Proof.
  unfold strings.lowerByte.
  destruct ((65 <=? strconv.byte c) && (strconv.byte c <=? 90)) eqn:E.
  - apply andb_true_iff in E. destruct E as [E1 E2].
    apply Z.leb_le in E1. apply Z.leb_le in E2.
    rewrite byte_ascii_of by lia. lia.
  - apply andb_false_iff in E. destruct E as [E | E];
      apply Z.leb_gt in E; lia.
Qed.

Lemma lowerByte_other c :
  ~ (65 <= strconv.byte c <= 90) -> strings.lowerByte c = c.
Proof.
  intros Hc. unfold strings.lowerByte.
  destruct ((65 <=? strconv.byte c) && (strconv.byte c <=? 90)) eqn:E;
    [| reflexivity].
  apply andb_true_iff in E. destruct E as [E1 E2].
  apply Z.leb_le in E1. apply Z.leb_le in E2. lia.
Qed.

Lemma ToLower_ascii_no_upper s :
  strings.isASCII s = true ->
  Forall (fun c => ~ (65 <= strconv.byte c <= 90))
         (list_ascii_of_string (ToLower s)) /\
  String.length (ToLower s) = String.length s.
Proof.
  intros Ha. unfold ToLower. rewrite Ha. clear Ha.
  induction s as [| c s [IH1 IH2]]; cbn; [split; [constructor | reflexivity] |].
  split; [constructor; [apply lowerByte_not_upper | exact IH1] |].
  now rewrite IH2.
Qed.

(** [getFileExtension] by the lowercased value of the variable. *)
Lemma getFileExtension_run r :
  let val := ToLower (default "" (mux_Vars r !! "extension")) in
  getFileExtension r =
    if decide (val = "") then (".jpg", None)
    else if decide (val = ".jpg" \/ val = ".webp") then (val, None)
    else ("", Some ErrInvalidFileExtension).
Proof.
  intros val. unfold getFileExtension. fold val.
  destruct (String.eqb_spec val "") as [E0 | E0].
  - rewrite decide_True by exact E0. reflexivity.
  - rewrite decide_False by exact E0.
    destruct (String.eqb_spec val ".jpg") as [E1 | E1].
    + rewrite decide_True by (now left). reflexivity.
    + destruct (String.eqb_spec val ".webp") as [E2 | E2].
      * rewrite decide_True by (now right). reflexivity.
      * rewrite decide_False by tauto. reflexivity.
Qed.

(** C4. Extension resolution lowercases the [extension] path variable (an
    absent one reads as the empty string), takes [.jpg] for an empty
    result, returns the value when it is exactly [.jpg] or [.webp], and
    fails with [ErrInvalidFileExtension] on anything else; so the
    [Extension] of every [Params] that [GetParams] builds is [.jpg] or
    [.webp]. *)
Theorem getFileExtension_whitelist r :
  let val := ToLower (default "" (mux_Vars r !! "extension")) in
  (mux_Vars r !! "extension" = None -> val = "") /\
  (val = "" -> getFileExtension r = (".jpg", None)) /\
  (val = ".jpg" \/ val = ".webp" -> getFileExtension r = (val, None)) /\
  (val <> "" -> val <> ".jpg" -> val <> ".webp" ->
   getFileExtension r = ("", Some ErrInvalidFileExtension)) /\
  (forall h p h',
     GetParams r h = Some ((p, None), h') ->
     exists v, pointsP h' p v /\
               (Extension v = ".jpg" \/ Extension v = ".webp")).
Proof.
  intros val. pose proof (getFileExtension_run r) as Hrun. fold val in Hrun.
  cbv zeta in Hrun.
  split; [| split; [| split; [| split]]].
  - intros E. unfold val. rewrite E. reflexivity.
  - intros E. rewrite Hrun, decide_True by exact E. reflexivity.
  - intros E. rewrite Hrun.
    rewrite decide_False by (destruct E as [E | E]; rewrite E; discriminate).
    rewrite decide_True by exact E. reflexivity.
  - intros E0 E1 E2. rewrite Hrun.
    rewrite decide_False by exact E0. rewrite decide_False by tauto.
    reflexivity.
  - intros h p h' Hok.
    destruct (GetParams_success _ _ _ _ Hok) as (v & Hv & _ & Hext & _).
    exists v. split; [exact Hv |].
    rewrite Hrun in Hext.
    destruct (decide (val = "")); [injection Hext as <-; now left |].
    destruct (decide (val = ".jpg" \/ val = ".webp")) as [E |];
      [| discriminate].
    injection Hext as <-. exact E.
Qed.

(** C5. Query-flag resolution has no error result: [grayscale] is true
    exactly when the query has a [grayscale] parameter, [blur] exactly when
    it has a [blur] parameter; with [blur] present the amount is the
    integer its value parses as, and 5 when the value does not parse. The
    flags go into the [Params] as they are, and [GetParams] cannot fail
    once size and extension are resolved. *)
Theorem getQueryParams_flags r :
  exists grayscale blur blurAmount,
    getQueryParams r = (grayscale, blur, blurAmount) /\
    (grayscale = true <-> is_Some (URL_Query r !! "grayscale")) /\
    (blur = true <-> is_Some (URL_Query r !! "blur")) /\
    (is_Some (URL_Query r !! "blur") ->
     (forall n, strconv.Atoi (url.Get (URL_Query r) "blur") = (n, None) ->
                blurAmount = n) /\
     (snd (strconv.Atoi (url.Get (URL_Query r) "blur")) <> None ->
      blurAmount = 5)) /\
    (forall h width height extension,
       getSize r = (width, height, None) ->
       getFileExtension r = (extension, None) ->
       exists p h',
         GetParams r h = Some ((p, None), h') /\
         pointsP h' p
           (mkParams width height blur blurAmount grayscale extension)).
Proof.
  destruct (getQueryParams r) as [[grayscale blur] blurAmount] eqn:E.
  exists grayscale, blur, blurAmount. split; [reflexivity |].
  assert (Hflags :
    (grayscale = true <-> is_Some (URL_Query r !! "grayscale")) /\
    (blur = true <-> is_Some (URL_Query r !! "blur")) /\
    (is_Some (URL_Query r !! "blur") ->
     (forall n, strconv.Atoi (url.Get (URL_Query r) "blur") = (n, None) ->
                blurAmount = n) /\
     (snd (strconv.Atoi (url.Get (URL_Query r) "blur")) <> None ->
      blurAmount = 5))).
  { unfold getQueryParams in E.
    assert (Hg : (match URL_Query r !! "grayscale" with
                  | Some _ => true | None => false end) = true
                 <-> is_Some (URL_Query r !! "grayscale")).
    { destruct (URL_Query r !! "grayscale"); split; intros H;
        try discriminate; eauto. now destruct H. }
    destruct (URL_Query r !! "blur") as [vs |] eqn:Eb.
    - destruct (strconv.Atoi (url.Get (URL_Query r) "blur"))
        as [val [e |]] eqn:Ea; injection E as <- <- <-.
      + split; [exact Hg |]. split; [split; eauto |].
        intros _. split; [intros n [=] | reflexivity].
      + split; [exact Hg |]. split; [split; eauto |].
        intros _. split; [intros n [= <-]; reflexivity |].
        simpl. congruence.
    - injection E as <- <- <-.
      split; [exact Hg |]. split.
      + split; [discriminate | intros H; now destruct H].
      + intros H. now destruct H. }
  destruct Hflags as (Hg & Hb & Ha).
  split; [exact Hg |]. split; [exact Hb |]. split; [exact Ha |].
  intros h width height extension E1 E2.
  eexists _, _. split; [exact (GetParams_ok _ h _ _ _ _ _ _ E1 E2 E) |].
  apply lookup_insert_eq.
Qed.

(** C8. [GetParams] is deterministic: two runs on the same request, from
    any two heaps, either both return the nil pointer with the same error,
    or both return a pointer to [Params] with the same field values. *)
Theorem GetParams_deterministic r h1 h2 :
  (exists e,
     GetParams r h1 = Some ((nil, Some e), h1) /\
     GetParams r h2 = Some ((nil, Some e), h2)) \/
  (exists p1 p2 h1' h2' v,
     GetParams r h1 = Some ((p1, None), h1') /\
     GetParams r h2 = Some ((p2, None), h2') /\
     pointsP h1' p1 v /\ pointsP h2' p2 v).
Proof.
  destruct (getSize r) as [[width height] [e |]] eqn:E1.
  { left. exists e. split; exact (GetParams_size_err _ _ _ _ _ E1). }
  destruct (getFileExtension r) as [extension [e |]] eqn:E2.
  { left. exists e. split; exact (GetParams_ext_err _ _ _ _ _ _ E1 E2). }
  destruct (getQueryParams r) as [[grayscale blur] blurAmount] eqn:E3.
  right.
  exists (addr (fresh (dom (params_cells h1)))),
         (addr (fresh (dom (params_cells h2)))).
  eexists _, _, _.
  split; [exact (GetParams_ok _ h1 _ _ _ _ _ _ E1 E2 E3) |].
  split; [exact (GetParams_ok _ h2 _ _ _ _ _ _ E1 E2 E3) |].
  split; apply lookup_insert_eq.
Qed.


(** The result depends on the request only through the four path variables
    and the two query parameters the package names. *)
Lemma resolvers_relevant r1 r2 :
  mux_Vars r1 !! "size" = mux_Vars r2 !! "size" ->
  mux_Vars r1 !! "width" = mux_Vars r2 !! "width" ->
  mux_Vars r1 !! "height" = mux_Vars r2 !! "height" ->
  mux_Vars r1 !! "extension" = mux_Vars r2 !! "extension" ->
  (is_Some (URL_Query r1 !! "grayscale")
   <-> is_Some (URL_Query r2 !! "grayscale")) ->
  URL_Query r1 !! "blur" = URL_Query r2 !! "blur" ->
  forall h, GetParams r1 h = GetParams r2 h.
Proof.
  intros Es Ew Eh Ex Eg Eb h.
  assert (E1 : getSize r1 = getSize r2).
  { unfold getSize, intParam. now rewrite Es, Ew, Eh. }
  assert (E2 : getFileExtension r1 = getFileExtension r2).
  { unfold getFileExtension. now rewrite Ex. }
  assert (E3 : getQueryParams r1 = getQueryParams r2).
  { unfold getQueryParams, url.Get. rewrite Eb.
    destruct (URL_Query r1 !! "grayscale") as [g1 |],
             (URL_Query r2 !! "grayscale") as [g2 |]; try reflexivity;
      exfalso; [apply (is_Some_None (A := list string)), Eg
               | apply (is_Some_None (A := list string)), Eg]; eauto. }
  unfold GetParams. now rewrite E1, E2, E3.
Qed.

(* ===================================================================== *)
(** ** Further properties of the package *)
(* ===================================================================== *)

(** A numeral outside the machine range is refused by [strconv.Atoi]. *)
Lemma Atoi_Itoa_out_of_range n :
  n < strconv.minInt \/ strconv.maxInt < n ->
  snd (strconv.Atoi (strconv.Itoa n)) = Some strconv.ErrRange.
Proof.
  intros Hn. unfold strconv.Itoa.
  assert (Hmin : strconv.minInt < 0) by reflexivity.
  assert (Hmax : 0 < strconv.maxInt) by reflexivity.
  destruct (n <? 0) eqn:Hneg.
  - apply Z.ltb_lt in Hneg.
    destruct (digits_utoa (strconv.ndigits (- n)) (- n) EmptyString 0)
      as (m & Hm & Hb & Hd & c & s' & Hs & Hc).
    { split; [lia | apply ndigits_bound; lia]. }
    { unfold strconv.ndigits. lia. }
    unfold strconv.Atoi. cbn [strconv.sign].
    rewrite Hd. rewrite Hs at 1. cbn [strconv.digits]. cbn beta iota.
    replace (0 * m + - n) with (- n) by lia.
    rewrite Z.opp_involutive.
    destruct (n <? strconv.minInt) eqn:E1; [reflexivity |].
    apply Z.ltb_ge in E1. lia.
  - apply Z.ltb_ge in Hneg.
    destruct (digits_utoa (strconv.ndigits n) n EmptyString 0)
      as (m & Hm & Hb & Hd & c & s' & Hs & Hc).
    { split; [lia | apply ndigits_bound; lia]. }
    { unfold strconv.ndigits. lia. }
    unfold strconv.Atoi.
    rewrite Hs at 1. rewrite digit_char_not_sign by exact Hc.
    rewrite <- Hs. rewrite Hd. cbn [strconv.digits].
    replace (0 * m + n) with n by lia.
    destruct (n <? strconv.minInt) eqn:E1; [reflexivity |].
    destruct (strconv.maxInt <? n) eqn:E2; [reflexivity |].
    apply Z.ltb_ge in E1. apply Z.ltb_ge in E2. lia.
Qed.

Lemma hasInt_unique r name n m : hasInt r name n -> hasInt r name m -> n = m.
Proof.
  intros (s & Hs & Ha) (s' & Hs' & Ha'). congruence.
Qed.

(** X1. Size resolution succeeds in exactly two ways: a [size] variable that
    parses (both results are its value), or no parsable [size] and a [width]
    and a [height] that both parse (the results are their values). Every
    failure is [ErrInvalidSize] with both results [-1]. *)
Theorem getSize_outcome r :
  (forall width height,
     getSize r = (width, height, None) <->
     (hasInt r "size" width /\ height = width) \/
     ((~ exists n, hasInt r "size" n) /\
      hasInt r "width" width /\ hasInt r "height" height)) /\
  (forall width height e,
     getSize r = (width, height, Some e) ->
     width = -1 /\ height = -1 /\ e = ErrInvalidSize).
Proof.
  unfold getSize.
  destruct (intParam r "size") as [size oks] eqn:Es.
  destruct (intParam r "width") as [w okw] eqn:Ew.
  destruct (intParam r "height") as [hh okh] eqn:Eh.
  assert (Hsize : oks = false -> ~ exists n, hasInt r "size" n).
  { intros ->. apply intParam_false. now rewrite Es. }
  split.
  - intros width height. split.
    + destruct oks.
      * intros [= <- <-]. left. split; [now apply intParam_true | reflexivity].
      * destruct okw; [| discriminate]. destruct okh; [| discriminate].
        cbn. intros [= <- <-]. right.
        split; [now apply Hsize |]. split; now apply intParam_true.
    + intros [[Hs ->] | (Hno & Hw & Hh)].
      * apply intParam_true in Hs. rewrite Es in Hs.
        injection Hs as -> ->. reflexivity.
      * apply intParam_false in Hno. rewrite Es in Hno. cbn in Hno. subst oks.
        apply intParam_true in Hw. apply intParam_true in Hh.
        rewrite Ew in Hw. rewrite Eh in Hh.
        injection Hw as -> ->. injection Hh as -> ->. reflexivity.
  - intros width height e.
    destruct oks; [discriminate |].
    destruct okw; cbn; [| intros [= <- <- <-]; auto].
    destruct okh; cbn; [discriminate | intros [= <- <- <-]; auto].
Qed.

(** X2. A [size] variable that does not parse counts as absent: the
    resolution is that of the request without it, so a valid [width] and
    [height] beside a malformed [size] are still used. *)
Theorem getSize_unparsable_size_ignored vars q s :
  snd (strconv.Atoi s) <> None ->
  getSize (mkRequest (<["size" := s]> vars) q)
  = getSize (mkRequest (delete "size" vars) q).
Proof.
  intros Hs. unfold getSize, intParam. cbn [mux_Vars].
  rewrite lookup_insert_eq, lookup_delete_eq.
  rewrite !lookup_insert_ne, !lookup_delete_ne by discriminate.
  destruct (strconv.Atoi s) as [v err]. cbn in Hs.
  rewrite bool_decide_eq_false_2 by exact Hs. reflexivity.
Qed.

(** X3. A request whose only path variable is a [size] written in decimal
    resolves to that value for both dimensions when it is a machine integer
    (negative values and zero included) and fails with [ErrInvalidSize] when
    it is outside the machine range. *)
Theorem getSize_only_size_range S q :
  (strconv.minInt <= S <= strconv.maxInt ->
   getSize (mkRequest {[ "size" := strconv.Itoa S ]} q) = (S, S, None)) /\
  (S < strconv.minInt \/ strconv.maxInt < S ->
   getSize (mkRequest {[ "size" := strconv.Itoa S ]} q)
   = (-1, -1, Some ErrInvalidSize)).
Proof.
  split; intros HS; unfold getSize, intParam; cbn [mux_Vars];
    rewrite lookup_singleton_eq.
  - rewrite (Atoi_Itoa _ HS). reflexivity.
  - pose proof (Atoi_Itoa_out_of_range _ HS) as E.
    destruct (strconv.Atoi (strconv.Itoa S)) as [v err]. cbn in E. subst err.
    rewrite lookup_singleton_ne by discriminate. reflexivity.
Qed.

Lemma getSize_error_kind r width height e :
  getSize r = (width, height, Some e) -> e = ErrInvalidSize.
Proof.
  unfold getSize.
  destruct (intParam r "size") as [size []]; [discriminate |].
  destruct (intParam r "width") as [w []]; cbn; [| congruence].
  destruct (intParam r "height") as [hh []]; cbn; congruence.
Qed.

Lemma getFileExtension_error_kind r extension e :
  getFileExtension r = (extension, Some e) -> e = ErrInvalidFileExtension.
Proof.
  unfold getFileExtension.
  destruct (negb _ && negb _); congruence.
Qed.

(** X4. [GetParams] always returns, and its error tells which resolver
    failed: [ErrInvalidSize] exactly when size resolution fails (whatever the
    extension is), [ErrInvalidFileExtension] exactly when the size resolves
    and the extension does not, and never [ErrInvalidBlurAmount]. *)
Theorem GetParams_error_precedence r h :
  exists p err h',
    GetParams r h = Some ((p, err), h') /\
    (err = Some ErrInvalidSize <-> snd (getSize r) <> None) /\
    (err = Some ErrInvalidFileExtension <->
     snd (getSize r) = None /\ snd (getFileExtension r) <> None) /\
    (err = None <->
     snd (getSize r) = None /\ snd (getFileExtension r) = None) /\
    err <> Some ErrInvalidBlurAmount.
Proof.
  destruct (getSize r) as [[width height] [e |]] eqn:E1.
  { pose proof (getSize_error_kind _ _ _ _ E1) as ->.
    eexists _, _, _. split; [exact (GetParams_size_err _ h _ _ _ E1) |].
    cbn. repeat split; try congruence; intros []; congruence. }
  destruct (getFileExtension r) as [extension [e |]] eqn:E2.
  { pose proof (getFileExtension_error_kind _ _ _ E2) as ->.
    eexists _, _, _. split; [exact (GetParams_ext_err _ h _ _ _ _ E1 E2) |].
    cbn. repeat split; try congruence; intros []; congruence. }
  destruct (getQueryParams r) as [[grayscale blur] blurAmount] eqn:E3.
  eexists _, _, _. split; [exact (GetParams_ok _ h _ _ _ _ _ _ E1 E2 E3) |].
  cbn. repeat split; try congruence; intros []; congruence.
Qed.

(** The three shapes of a run of [GetParams]. *)
Lemma GetParams_cases r h :
  (exists e, GetParams r h = Some ((nil, Some e), h)) \/
  (exists v,
     let l := fresh (dom (params_cells h)) in
     GetParams r h
     = Some ((addr l, None),
             mkHeap (<[l := v]> (params_cells h)) (image_cells h))).
Proof.
  destruct (getSize r) as [[width height] [e |]] eqn:E1.
  { left. exists e. exact (GetParams_size_err _ h _ _ _ E1). }
  destruct (getFileExtension r) as [extension [e |]] eqn:E2.
  { left. exists e. exact (GetParams_ext_err _ h _ _ _ _ E1 E2). }
  destruct (getQueryParams r) as [[grayscale blur] blurAmount] eqn:E3.
  right. eexists. exact (GetParams_ok _ h _ _ _ _ _ _ E1 E2 E3).
Qed.

(** X5. [GetParams] returns either a nil pointer with an error or a non-nil
    pointer without one, never both and never neither; when it returns an
    error the heap is the one it started from (nothing was allocated). *)
Theorem GetParams_nil_iff_error r h p err h' :
  GetParams r h = Some ((p, err), h') ->
  (p = nil <-> err <> None) /\
  (err <> None -> h' = h) /\
  (err = None -> exists v, pointsP h' p v).
Proof.
  intros Hrun.
  destruct (GetParams_cases r h) as [(e & E) | (v & E)];
    rewrite E in Hrun; injection Hrun as <- <- <-.
  - split; [split; congruence |]. split; [reflexivity | congruence].
  - split; [split; congruence |]. split; [congruence |].
    intros _. exists v. apply lookup_insert_eq.
Qed.

(** X6. [GetParams] touches no object that exists: the images and every
    [Params] cell already allocated keep their values, and a returned
    non-nil pointer is an address that was free before the call, the only
    one added. *)
Theorem GetParams_frame r h p err h' :
  GetParams r h = Some ((p, err), h') ->
  image_cells h' = image_cells h /\
  (forall l v, params_cells h !! l = Some v -> params_cells h' !! l = Some v) /\
  (forall l, p = addr l ->
     params_cells h !! l = None /\
     dom (params_cells h') = {[ l ]} ∪ dom (params_cells h)).
Proof.
  intros Hrun.
  destruct (GetParams_cases r h) as [(e & E) | (v & E)];
    rewrite E in Hrun; injection Hrun as <- <- <-.
  - split; [reflexivity |]. split; [auto | discriminate].
  - destruct (new_run v h) as [_ Hfresh]. cbv zeta in Hfresh.
    split; [reflexivity |]. split.
    + intros l w Hl. cbn.
      rewrite lookup_insert_ne; [exact Hl | congruence].
    + intros l [= <-]. split; [exact Hfresh |].
      cbn. apply dom_insert_L.
Qed.

(** X7. A request with nothing but a [size] in decimal gets the defaults:
    for every machine integer [S], [GetParams] builds width = height = [S],
    no blur (amount 0), no grayscale and the extension [.jpg]. *)
Theorem GetParams_only_size_defaults S h :
  strconv.minInt <= S <= strconv.maxInt ->
  exists p h',
    GetParams (mkRequest {[ "size" := strconv.Itoa S ]} ∅) h
    = Some ((p, None), h') /\
    pointsP h' p (mkParams S S false 0 false ".jpg").
Proof.
  intros HS.
  eexists _, _. split.
  - apply GetParams_ok.
    + apply getSize_only_size, HS.
    + unfold getFileExtension. cbn [mux_Vars].
      rewrite lookup_singleton_ne by discriminate. reflexivity.
    + unfold getQueryParams. cbn [URL_Query].
      rewrite !lookup_empty. reflexivity.
  - apply lookup_insert_eq.
Qed.

(** X8. The outcome of [Validate] on live objects, case by case: no error
    exactly when both dimensions pass the ceiling rule and a requested blur
    is within 1..10; [ErrInvalidSize] exactly when a dimension fails the
    ceiling rule, also when the blur amount is out of range as well (the
    size checks come first); [ErrInvalidBlurAmount] exactly when the
    dimensions pass and the requested blur is out of range; never
    [ErrInvalidFileExtension]. *)
Theorem Validate_outcome h p image pv iv :
  pointsP h p pv -> pointsI h image iv ->
  let size_ok :=
    (Width pv <= 5000 \/ Width pv = database.Width iv) /\
    (Height pv <= 5000 \/ Height pv = database.Height iv) in
  let blur_ok := Blur pv = true -> 1 <= BlurAmount pv <= 10 in
  (Validate p image h = Some (None, h) <-> size_ok /\ blur_ok) /\
  (Validate p image h = Some (Some ErrInvalidSize, h) <-> ~ size_ok) /\
  (Validate p image h = Some (Some ErrInvalidBlurAmount, h)
   <-> size_ok /\ ~ blur_ok) /\
  Validate p image h <> Some (Some ErrInvalidFileExtension, h).
Proof.
  intros Hp Hi size_ok blur_ok. subst size_ok blur_ok.
  rewrite (Validate_run _ _ _ _ _ Hp Hi).
  assert (Htt : true = true <-> True) by tauto.
  assert (Hft : false = true <-> False) by (split; [discriminate | tauto]).
  destruct (Blur pv); rewrite ?Htt, ?Hft; cases;
    (repeat split;
     first [ discriminate | reflexivity | lia
           | intros; exfalso; first [discriminate | lia]
           | intros ? [=] ]).
Qed.

(** X9. [Validate] looks at the width, the height, the blur flag and, when
    the flag is set, the blur amount, and at nothing else: two [Params] that
    agree on those get the same answer, whatever their grayscale flag,
    extension and unused blur amount are. *)
Theorem Validate_ignores_other_fields h p p' image pv pv' iv :
  pointsP h p pv -> pointsP h p' pv' -> pointsI h image iv ->
  Width pv = Width pv' -> Height pv = Height pv' -> Blur pv = Blur pv' ->
  (Blur pv = true -> BlurAmount pv = BlurAmount pv') ->
  Validate p image h = Validate p' image h.
Proof.
  intros Hp Hp' Hi EW EH EB EA.
  rewrite (Validate_run _ _ _ _ _ Hp Hi), (Validate_run _ _ _ _ _ Hp' Hi).
  rewrite <- EW, <- EH, <- EB.
  destruct (Blur pv); [rewrite <- EA by reflexivity |]; reflexivity.
Qed.

(** X10. With a nil image, [Validate] panics exactly when the width or the
    height is above 5000 (the only case in which it dereferences the
    image); at or below the ceiling the image is never read, and the answer
    is the same for every image pointer. *)
Theorem Validate_nil_image h p pv :
  pointsP h p pv ->
  (Validate p nil h = None <-> Width pv > 5000 \/ Height pv > 5000) /\
  (Width pv <= 5000 -> Height pv <= 5000 ->
   forall image, Validate p image h = Validate p nil h).
Proof.
  intros Hp.
  assert (Hsmall : Width pv <= 5000 -> Height pv <= 5000 ->
          forall image, Validate p image h
          = Some (if Blur pv && (BlurAmount pv <? minBlurAmount)
                  then Some ErrInvalidBlurAmount
                  else if Blur pv && (BlurAmount pv >? maxBlurAmount)
                  then Some ErrInvalidBlurAmount else None, h)).
  { intros HW HH image. unfold Validate.
    assert (W1 : (Width pv >? maxImageSize) = false)
      by (unfold maxImageSize; lia).
    assert (H1 : (Height pv >? maxImageSize) = false)
      by (unfold maxImageSize; lia).
    destruct (Blur pv) eqn:B,
             (BlurAmount pv <? minBlurAmount) eqn:B1,
             (BlurAmount pv >? maxBlurAmount) eqn:B2;
      repeat (step Hp Hp; cbn beta iota; rewrite ?W1, ?H1, ?B, ?B1, ?B2);
      reflexivity. }
  split.
  - split.
    + intros E.
      destruct (Z_le_gt_dec (Width pv) 5000) as [HW | HW]; [| now left].
      destruct (Z_le_gt_dec (Height pv) 5000) as [HH | HH]; [| now right].
      rewrite (Hsmall HW HH nil) in E. discriminate.
    + intros Hbig. unfold Validate.
      destruct (Width pv >? maxImageSize) eqn:W1.
      * repeat (step Hp Hp; cbn beta iota; rewrite ?W1). reflexivity.
      * assert (H1 : (Height pv >? maxImageSize) = true).
        { apply Z.gtb_gt. rewrite Z.gtb_ltb in W1. apply Z.ltb_ge in W1.
          unfold maxImageSize in *. lia. }
        repeat (step Hp Hp; cbn beta iota; rewrite ?W1, ?H1). reflexivity.
  - intros HW HH image. now rewrite !(Hsmall HW HH).
Qed.

(** X11. With a nil image, [Dimensions] panics exactly when the width or the
    height is 0 (it then needs the natural size); otherwise it returns the
    requested width and height without reading the image. *)
Theorem Dimensions_nil_image h p pv :
  pointsP h p pv ->
  (Dimensions p nil h = None <-> Width pv = 0 \/ Height pv = 0) /\
  (Width pv <> 0 -> Height pv <> 0 ->
   forall image, Dimensions p image h = Some ((Width pv, Height pv), h)).
Proof.
  intros Hp.
  assert (Hset : Width pv <> 0 -> Height pv <> 0 ->
          forall image, Dimensions p image h = Some ((Width pv, Height pv), h)).
  { intros HW HH image. unfold Dimensions.
    apply Z.eqb_neq in HW. apply Z.eqb_neq in HH.
    repeat (step Hp Hp; cbn beta iota; rewrite ?HW, ?HH). reflexivity. }
  split; [| exact Hset].
  split.
  - intros E.
    destruct (Z.eq_dec (Width pv) 0) as [HW | HW]; [now left |].
    destruct (Z.eq_dec (Height pv) 0) as [HH | HH]; [now right |].
    rewrite (Hset HW HH nil) in E. discriminate.
  - intros Hz. unfold Dimensions.
    destruct (Width pv =? 0) eqn:W0.
    + repeat (step Hp Hp; cbn beta iota; rewrite ?W0). reflexivity.
    + assert (H0 : (Height pv =? 0) = true).
      { apply Z.eqb_eq. apply Z.eqb_neq in W0. tauto. }
      repeat (step Hp Hp; cbn beta iota; rewrite ?W0, ?H0). reflexivity.
Qed.

(** X12. Validation bounds what [Dimensions] gives: after a [Validate]
    without error, the resolved width is at most the larger of 5000 and the
    image's natural width, and likewise for the height. *)
Theorem Validate_then_Dimensions_bounded h p image pv iv :
  pointsP h p pv -> pointsI h image iv ->
  Validate p image h = Some (None, h) ->
  exists width height,
    Dimensions p image h = Some ((width, height), h) /\
    width <= Z.max 5000 (database.Width iv) /\
    height <= Z.max 5000 (database.Height iv).
Proof.
  intros Hp Hi.
  rewrite (Validate_run _ _ _ _ _ Hp Hi), (Dimensions_run _ _ _ _ _ Hp Hi).
  intros E. eexists _, _. split; [reflexivity |].
  cases; try discriminate; lia.
Qed.

(** X13. [Dimensions] never yields a zero for an image whose natural
    dimensions are not zero: the sentinel 0 is always replaced. *)
Theorem Dimensions_nonzero h p image pv iv :
  pointsP h p pv -> pointsI h image iv ->
  database.Width iv <> 0 -> database.Height iv <> 0 ->
  exists width height,
    Dimensions p image h = Some ((width, height), h) /\
    width <> 0 /\ height <> 0.
Proof.
  intros Hp Hi HW HH. rewrite (Dimensions_run _ _ _ _ _ Hp Hi).
  eexists _, _. split; [reflexivity |].
  cases; split; assumption.
Qed.

Lemma GetParams_image_cells r h p err h' :
  GetParams r h = Some ((p, err), h') -> image_cells h' = image_cells h.
Proof.
  intros Hrun.
  destruct (GetParams_cases r h) as [(e & E) | (v & E)];
    rewrite E in Hrun; injection Hrun as <- <- <-; reflexivity.
Qed.

Lemma pointsI_image_cells h h' i v :
  image_cells h' = image_cells h -> pointsI h i v -> pointsI h' i v.
Proof. intros E. destruct i; simpl; [tauto | now rewrite E]. Qed.

(** The blur flag and amount that [getQueryParams] gives are out of range
    exactly when the query names a numeric [blur] outside 1..10. *)
Lemma blur_out_of_range_iff r grayscale blur blurAmount :
  getQueryParams r = (grayscale, blur, blurAmount) ->
  (blur = true /\ (blurAmount < 1 \/ blurAmount > 10)) <->
  (is_Some (URL_Query r !! "blur") /\
   exists n, strconv.Atoi (url.Get (URL_Query r) "blur") = (n, None) /\
             (n < 1 \/ n > 10)).
Proof.
  unfold getQueryParams.
  destruct (URL_Query r !! "blur") as [vs |] eqn:Eb.
  - destruct (strconv.Atoi (url.Get (URL_Query r) "blur")) as [n [e |]] eqn:Ea;
      intros [= <- <- <-].
    + unfold defaultBlurAmount. split.
      * intros [_ H]. lia.
      * intros (_ & m & [=] & _).
    + split.
      * intros [_ H]. split; [eexists; reflexivity |]. exists n. auto.
      * intros (_ & m & [= <-] & H). auto.
  - intros [= <- <- <-]. split.
    + intros [[=] _].
    + intros ([x Hx] & _). discriminate.
Qed.

(** X14. From the request to the blur check: for [Params] that [GetParams]
    has built and whose dimensions pass the ceiling rule, [Validate] answers
    [ErrInvalidBlurAmount] exactly when the query has a [blur] parameter
    whose first value parses as an integer below 1 or above 10, and no error
    otherwise; a [blur] without a numeric value is never refused. *)
Theorem GetParams_then_Validate_blur r h p h' image iv width height :
  GetParams r h = Some ((p, None), h') -> pointsI h image iv ->
  getSize r = (width, height, None) ->
  (width <= 5000 \/ width = database.Width iv) ->
  (height <= 5000 \/ height = database.Height iv) ->
  let bad_blur :=
    is_Some (URL_Query r !! "blur") /\
    exists n, strconv.Atoi (url.Get (URL_Query r) "blur") = (n, None) /\
              (n < 1 \/ n > 10) in
  (Validate p image h' = Some (Some ErrInvalidBlurAmount, h') <-> bad_blur) /\
  (Validate p image h' = Some (None, h') <-> ~ bad_blur).
Proof.
  intros Hrun Hi Hsz HW HH bad_blur. subst bad_blur.
  destruct (GetParams_success _ _ _ _ Hrun) as (v & Hv & S1 & _ & Q1).
  pose proof (pointsI_image_cells _ _ _ _
                (GetParams_image_cells _ _ _ _ _ Hrun) Hi) as Hi'.
  rewrite Hsz in S1. injection S1 as EW EH.
  rewrite <- (blur_out_of_range_iff _ _ _ _ Q1).
  rewrite (Validate_run _ _ _ _ _ Hv Hi'), <- EW, <- EH.
  destruct (Blur v); cases; try lia;
    (split; split;
     first [ discriminate | reflexivity
           | intros _; split; [reflexivity | lia]
           | intros [_ Hout]; exfalso; lia
           | intros [Hblur _]; discriminate Hblur
           | intros _ [_ Hout]; lia
           | intros _ [Hblur _]; discriminate Hblur
           | intros Hneg; exfalso; apply Hneg; split; [reflexivity | lia] ]).
Qed.

(** X15. From the request to the output size: for [Params] that [GetParams]
    has built, [Dimensions] returns the resolved width and height, a 0 in the
    request standing for the image's natural dimension. *)
Theorem GetParams_then_Dimensions r h p h' image iv width height :
  GetParams r h = Some ((p, None), h') -> pointsI h image iv ->
  getSize r = (width, height, None) ->
  Dimensions p image h'
  = Some ((if width =? 0 then database.Width iv else width,
           if height =? 0 then database.Height iv else height), h').
Proof.
  intros Hrun Hi Hsz.
  destruct (GetParams_success _ _ _ _ Hrun) as (v & Hv & S1 & _).
  pose proof (pointsI_image_cells _ _ _ _
                (GetParams_image_cells _ _ _ _ _ Hrun) Hi) as Hi'.
  rewrite Hsz in S1. injection S1 as EW EH.
  rewrite (Dimensions_run _ _ _ _ _ Hv Hi'), <- EW, <- EH. reflexivity.
Qed.

(** X16. Of a repeated [blur] parameter only the first value counts, and a
    [blur] key with no value at all still switches blur on with the default
    amount 5. *)
Theorem getQueryParams_first_blur_value vars q v rest :
  getQueryParams (mkRequest vars (<["blur" := v :: rest]> q))
  = getQueryParams (mkRequest vars (<["blur" := [v]]> q)) /\
  getQueryParams (mkRequest vars (<["blur" := []]> q))
  = (fst (fst (getQueryParams (mkRequest vars q))), true, 5).
Proof.
  unfold getQueryParams, url.Get. cbn [URL_Query].
  rewrite !lookup_insert_eq.
  rewrite !lookup_insert_ne by discriminate.
  split; [reflexivity |].
  destruct (q !! "grayscale"), (q !! "blur"); cbn;
    repeat match goal with
      | |- context [strconv.Atoi ?s] => destruct (strconv.Atoi s) as [? [|]]
      end; reflexivity.
Qed.

(** X17. Path variables other than [size], [width], [height] and
    [extension], and query parameters other than [grayscale] and [blur], do
    not influence [GetParams]. *)
Theorem GetParams_ignores_other_keys vars q k v k' vs h :
  k <> "size" -> k <> "width" -> k <> "height" -> k <> "extension" ->
  k' <> "grayscale" -> k' <> "blur" ->
  GetParams (mkRequest (<[k := v]> vars) (<[k' := vs]> q)) h
  = GetParams (mkRequest vars q) h.
Proof.
  intros H1 H2 H3 H4 H5 H6.
  apply resolvers_relevant; cbn [mux_Vars URL_Query];
    rewrite ?lookup_insert_ne by assumption; reflexivity.
Qed.

(** X18. Extension resolution is a normalisation: an extension it returns,
    given back as the [extension] variable, resolves to itself. *)
Theorem getFileExtension_normal_form r extension vars q :
  getFileExtension r = (extension, None) ->
  getFileExtension (mkRequest (<["extension" := extension]> vars) q)
  = (extension, None).
Proof.
  intros E. rewrite getFileExtension_run in E.
  assert (Hext : extension = ".jpg" \/ extension = ".webp").
  { destruct (decide (_ = "")); [injection E as <-; now left |].
    destruct (decide (_ \/ _)) as [Hv |]; [| discriminate].
    injection E as <-. exact Hv. }
  unfold getFileExtension. cbn [mux_Vars]. rewrite lookup_insert_eq.
  destruct Hext as [-> | ->]; reflexivity.
Qed.

Lemma lowerByte_ascii c :
  strconv.byte c < 128 -> strconv.byte (strings.lowerByte c) < 128.
Proof.
  intros Hc. unfold strings.lowerByte.
  destruct ((65 <=? strconv.byte c) && (strconv.byte c <=? 90)) eqn:E;
    [| exact Hc].
  apply andb_true_iff in E. destruct E as [E1 E2].
  apply Z.leb_le in E1. apply Z.leb_le in E2.
  rewrite byte_ascii_of by lia. lia.
Qed.

Lemma lowerByte_idempotent c :
  strings.lowerByte (strings.lowerByte c) = strings.lowerByte c.
Proof. apply lowerByte_other, lowerByte_not_upper. Qed.

Lemma ToLower_idempotent_ascii s :
  strings.isASCII s = true -> ToLower (ToLower s) = ToLower s.
Proof.
  intros Ha.
  assert (Hlow : strings.isASCII (strings.mapBytes strings.lowerByte s) = true
                 /\ strings.mapBytes strings.lowerByte
                      (strings.mapBytes strings.lowerByte s)
                    = strings.mapBytes strings.lowerByte s).
  { unfold strings.isASCII in *.
    induction s as [| c s IH]; [split; reflexivity |].
    cbn in Ha. apply andb_true_iff in Ha. destruct Ha as [Hc Hs].
    destruct (IH Hs) as [IH1 IH2]. cbn. split.
    - apply andb_true_iff. split; [| exact IH1].
      apply Z.ltb_lt, lowerByte_ascii. now apply Z.ltb_lt.
    - now rewrite lowerByte_idempotent, IH2. }
  unfold ToLower. rewrite Ha. destruct Hlow as [-> ->]. reflexivity.
Qed.

(** X20. On an ASCII extension the matching is case-insensitive: the
    extension and its lower-case form resolve alike. *)
Theorem getFileExtension_case_insensitive vars q s :
  strings.isASCII s = true ->
  getFileExtension (mkRequest (<["extension" := s]> vars) q)
  = getFileExtension
      (mkRequest
         (<["extension" := strings.mapBytes strings.lowerByte s]> vars) q).
Proof.
  intros Ha.
  assert (E : ToLower s = strings.mapBytes strings.lowerByte s)
    by (unfold ToLower; now rewrite Ha).
  assert (Hval : forall t,
            ToLower (default "" (<["extension" := t]> vars !! "extension"))
            = ToLower t)
    by (intros t; now rewrite lookup_insert_eq).
  unfold getFileExtension. cbn [mux_Vars].
  rewrite !Hval, <- E, (ToLower_idempotent_ascii s Ha). reflexivity.
Qed.

Lemma lowerByte_dot c : strings.lowerByte c = "."%char -> c = "."%char.
Proof.
  unfold strings.lowerByte.
  destruct ((65 <=? strconv.byte c) && (strconv.byte c <=? 90)) eqn:E;
    [| auto].
  apply andb_true_iff in E. destruct E as [E1 E2].
  apply Z.leb_le in E1. apply Z.leb_le in E2.
  intros Hdot. apply (f_equal strconv.byte) in Hdot.
  rewrite byte_ascii_of in Hdot by lia.
  change (strconv.byte ".") with 46 in Hdot. lia.
Qed.

Lemma mapBytes_length f s :
  String.length (strings.mapBytes f s) = String.length s.
Proof. induction s as [| c s IH]; cbn; [reflexivity | now rewrite IH]. Qed.

(** X21. Nothing but lower-casing is done to the extension: an accepted
    ASCII extension is empty, or starts with a dot and has the length of the
    result ([jpg] without the dot is refused). *)
Theorem getFileExtension_needs_dot vars q s extension :
  strings.isASCII s = true ->
  getFileExtension (mkRequest (<["extension" := s]> vars) q)
  = (extension, None) ->
  s = "" \/
  (exists t, s = String "." t) /\ String.length s = String.length extension.
Proof.
  intros Ha. rewrite getFileExtension_run. cbn [mux_Vars].
  assert (E : ToLower (default "" (<["extension" := s]> vars !! "extension"))
              = strings.mapBytes strings.lowerByte s)
    by (rewrite lookup_insert_eq;
        change (ToLower s = strings.mapBytes strings.lowerByte s);
        unfold ToLower; now rewrite Ha).
  rewrite E. clear E.
  destruct (decide (strings.mapBytes strings.lowerByte s = "")) as [E0 | E0].
  { intros _. left. destruct s; [reflexivity | discriminate E0]. }
  destruct (decide (_ \/ _)) as [Hv |]; [| discriminate].
  intros [= <-]. right. split; [| now rewrite mapBytes_length].
  destruct s as [| c t]; [now contradiction E0 |]. exists t.
  assert (Hc : strings.lowerByte c = "."%char)
    by (destruct Hv as [Hv | Hv]; cbn in Hv; now injection Hv).
  now rewrite (lowerByte_dot _ Hc).
Qed.

End params.

(* ===================================================================== *)
(** ** The theorems at the sample inputs *)
(* ===================================================================== *)

Ltac ev :=
  vm_compute; first [reflexivity | discriminate | tauto | eexists; reflexivity].

Example GetParams_req_size :
  GetParams ascii_only req_size heap0
  = Some ((addr 1, None),
          mkHeap {[ 1%positive := mkParams 300 300 true 3 true ".webp" ]} ∅).
Proof. vm_compute. reflexivity. Qed.

Example GetParams_req_png :
  GetParams ascii_only req_png heap0
  = Some ((nil, Some ErrInvalidFileExtension), heap0).
Proof. vm_compute. reflexivity. Qed.

Example getQueryParams_req_png : getQueryParams req_png = (false, true, 5).
Proof. vm_compute. reflexivity. Qed.

Example Validate_nil_image_panics : Validate (addr 1) nil heap1 = None.
Proof. vm_compute. reflexivity. Qed.

Example Validate_nil_params_panics : Validate nil (addr 1) heap1 = None.
Proof. vm_compute. reflexivity. Qed.

(** A width of 6000 passes against an image 6000 wide and is refused against
    one 3000 wide. *)
Lemma Validate_size_ceiling_witness :
  Validate (addr 1) (addr 2) heap1 = Some (Some ErrInvalidSize, heap1) /\
  exists e, Validate (addr 1) (addr 1) heap1 = Some (e, heap1)
            /\ e <> Some ErrInvalidSize.
Proof.
  split.
  - destruct (Validate_size_ceiling heap1 (addr 1) (addr 2)
                params_native image_3000) as (H1 & _ & _); [ev | ev |].
    apply H1. left. split; ev.
  - destruct (Validate_size_ceiling heap1 (addr 1) (addr 1)
                params_native image_6000) as (_ & H2 & _); [ev | ev |].
    apply H2; ev.
Defined.

Lemma Validate_blur_range_witness :
  Validate (addr 1) (addr 1) heap1 = Some (None, heap1) /\
  Validate (addr 4) (addr 3) heap1 = Some (Some ErrInvalidBlurAmount, heap1).
Proof.
  split.
  - destruct (Validate_blur_range heap1 (addr 1) (addr 1)
                params_native image_6000) as (_ & H2);
      [ev | ev | ev | right; ev | right; ev |].
    apply H2. split; ev.
  - destruct (Validate_blur_range heap1 (addr 4) (addr 3)
                params_blur11 image_800) as (H1 & _);
      [ev | ev | ev | left; ev | left; ev |].
    apply H1. right. ev.
Defined.

Lemma Dimensions_defaults_witness :
  exists width height,
    Dimensions (addr 2) (addr 3) heap1 = Some ((width, height), heap1) /\
    width = 800 /\ height = 200.
Proof.
  destruct (Dimensions_defaults heap1 (addr 2) (addr 3) params_zero image_800)
    as (width & height & Hrun & Hw0 & _ & _ & Hh); [ev | ev |].
  exists width, height. split; [exact Hrun |]. split.
  - apply Hw0. ev.
  - apply Hh. ev.
Defined.

Lemma Validate_no_lower_bound_witness :
  Validate (addr 3) (addr 3) heap1 = Some (None, heap1) /\
  exists width height,
    Dimensions (addr 3) (addr 3) heap1 = Some ((width, height), heap1) /\
    width = -5 /\ height = -1.
Proof.
  destruct (Validate_no_lower_bound heap1 (addr 3) (addr 3)
              params_negative image_800)
    as (Hv & width & height & Hrun & Hw & Hh); [ev | ev | ev | ev | ev |].
  split; [exact Hv |].
  exists width, height. split; [exact Hrun |]. split.
  - apply Hw. ev.
  - apply Hh. ev.
Defined.

Lemma Validate_Dimensions_frame_witness :
  (exists e h', Validate (addr 1) (addr 2) heap1 = Some (e, h') /\
                pointsP h' (addr 1) params_native /\
                pointsI h' (addr 2) image_3000) /\
  (exists d h', Dimensions (addr 1) (addr 2) heap1 = Some (d, h') /\
                pointsP h' (addr 1) params_native /\
                pointsI h' (addr 2) image_3000).
Proof.
  destruct (Validate_Dimensions_frame heap1 (addr 1) (addr 2)
              params_native image_3000)
    as ((e & h' & Hv & _ & Hp & Hi) & (d & h'' & Hd & _ & Hp' & Hi'));
    [ev | ev |].
  split; [exists e, h' | exists d, h'']; auto.
Defined.

Lemma getSize_size_first_witness :
  hasInt req_size "width" 10 /\ hasInt req_size "height" 20 /\
  getSize req_size = (300, 300, None).
Proof.
  split; [exists "10"; split; ev |].
  split; [exists "20"; split; ev |].
  apply (getSize_size_first ascii_only req_size 300).
  exists "300". split; ev.
Defined.

Lemma getSize_needs_width_height_witness :
  getSize req_no_height = (-1, -1, Some ErrInvalidSize) /\
  GetParams ascii_only req_no_height heap0
  = Some ((nil, Some ErrInvalidSize), heap0).
Proof.
  destruct (getSize_needs_width_height ascii_only req_no_height) as (H1 & H2).
  - apply intParam_false. ev.
  - right. apply intParam_false. ev.
  - split; [exact H1 | apply H2].
Defined.

Lemma getFileExtension_whitelist_witness :
  getFileExtension ascii_only req_size = (".webp", None) /\
  getFileExtension ascii_only req_no_height = (".jpg", None) /\
  getFileExtension ascii_only req_png = ("", Some ErrInvalidFileExtension).
Proof.
  split; [| split].
  - destruct (getFileExtension_whitelist ascii_only req_size)
      as (_ & _ & H & _).
    rewrite H; [ev | right; ev].
  - destruct (getFileExtension_whitelist ascii_only req_no_height)
      as (H0 & H & _).
    apply H, H0. ev.
  - destruct (getFileExtension_whitelist ascii_only req_png)
      as (_ & _ & _ & H & _).
    apply H; ev.
Defined.

Lemma getQueryParams_flags_witness :
  exists grayscale blur blurAmount,
    getQueryParams req_size = (grayscale, blur, blurAmount) /\
    grayscale = true /\ blur = true /\ blurAmount = 3.
Proof.
  destruct (getQueryParams_flags ascii_only req_size)
    as (g & b & a & E & Hg & Hb & Ha & _).
  assert (Hblur : is_Some (URL_Query req_size !! "blur")) by ev.
  exists g, b, a. split; [exact E |]. split; [apply Hg; ev |].
  split; [apply Hb; exact Hblur |].
  destruct (Ha Hblur) as [Hn _]. apply Hn. ev.
Defined.

(* ===================================================================== *)
(** ** The further properties at the sample inputs *)
(* ===================================================================== *)

Ltac rng := split; vm_compute; discriminate.

Lemma getSize_unparsable_size_ignored_witness :
  getSize req_no_height
  = getSize (mkRequest (delete "size" (<["width" := "200"]> ∅)) ∅).
Proof.
  apply (getSize_unparsable_size_ignored (<["width" := "200"]> ∅) ∅ "abc").
  ev.
Defined.

Lemma getSize_only_size_range_witness :
  getSize (mkRequest {[ "size" := "-5" ]} ∅) = (-5, -5, None) /\
  getSize (mkRequest {[ "size" := "9223372036854775808" ]} ∅)
  = (-1, -1, Some ErrInvalidSize).
Proof.
  split.
  - destruct (getSize_only_size_range (-5) ∅) as [H _].
    apply H. rng.
  - destruct (getSize_only_size_range 9223372036854775808 ∅) as [_ H].
    apply H. right. ev.
Defined.

Lemma GetParams_nil_iff_error_witness :
  (@nil Params = nil <-> Some ErrInvalidFileExtension <> None) /\
  exists v, pointsP (heap1_with params_req_size) (addr 5) v.
Proof.
  split.
  - apply (GetParams_nil_iff_error ascii_only req_png heap0 nil
             (Some ErrInvalidFileExtension) heap0).
    ev.
  - apply (GetParams_nil_iff_error ascii_only req_size heap1 (addr 5) None
             (heap1_with params_req_size)); ev.
Defined.

Lemma GetParams_frame_witness :
  params_cells heap1 !! 5%positive = None /\
  params_cells (heap1_with params_req_size) !! 1%positive = Some params_native.
Proof.
  destruct (GetParams_frame ascii_only req_size heap1 (addr 5) None
              (heap1_with params_req_size)) as (_ & Hold & Hnew); [ev |].
  split.
  - apply (Hnew 5%positive). reflexivity.
  - apply Hold. ev.
Defined.

Lemma GetParams_only_size_defaults_witness :
  exists p h',
    GetParams ascii_only (mkRequest {[ "size" := "300" ]} ∅) heap0
    = Some ((p, None), h') /\
    pointsP h' p (mkParams 300 300 false 0 false ".jpg").
Proof.
  apply (GetParams_only_size_defaults ascii_only 300 heap0). rng.
Defined.

Lemma Validate_outcome_witness :
  Validate (addr 1) (addr 2) heap1 = Some (Some ErrInvalidSize, heap1) /\
  Validate (addr 4) (addr 3) heap1 = Some (Some ErrInvalidBlurAmount, heap1) /\
  Validate (addr 3) (addr 3) heap1 = Some (None, heap1).
Proof.
  split; [| split].
  - destruct (Validate_outcome heap1 (addr 1) (addr 2)
                params_native image_3000) as (_ & H & _); [ev | ev |].
    apply H. intros [[Hw | Hw] _]; vm_compute in Hw;
      [apply Hw; reflexivity | discriminate Hw].
  - destruct (Validate_outcome heap1 (addr 4) (addr 3)
                params_blur11 image_800) as (_ & _ & H & _); [ev | ev |].
    apply H. split.
    + split; left; ev.
    + intros Hb. destruct (Hb eq_refl) as [_ Hle]. vm_compute in Hle.
      apply Hle. reflexivity.
  - destruct (Validate_outcome heap1 (addr 3) (addr 3)
                params_negative image_800) as (H & _); [ev | ev |].
    apply H. split.
    + split; left; ev.
    + intros Hb. discriminate Hb.
Defined.

Lemma Validate_ignores_other_fields_witness :
  Validate (addr 2) (addr 3) (heap1_with params_zero_gray)
  = Validate (addr 5) (addr 3) (heap1_with params_zero_gray).
Proof.
  apply (Validate_ignores_other_fields (heap1_with params_zero_gray)
           (addr 2) (addr 5) (addr 3) params_zero params_zero_gray image_800);
    ev.
Defined.

Lemma Validate_nil_image_witness :
  Validate (addr 1) nil heap1 = None /\
  Validate (addr 4) (addr 3) heap1 = Validate (addr 4) nil heap1.
Proof.
  split.
  - destruct (Validate_nil_image heap1 (addr 1) params_native) as [[_ H] _];
      [ev |].
    apply H. left. ev.
  - destruct (Validate_nil_image heap1 (addr 4) params_blur11) as [_ H];
      [ev |].
    apply H; ev.
Defined.

Lemma Dimensions_nil_image_witness :
  Dimensions (addr 2) nil heap1 = None /\
  Dimensions (addr 4) nil heap1 = Some ((200, 300), heap1).
Proof.
  split.
  - destruct (Dimensions_nil_image heap1 (addr 2) params_zero) as [[_ H] _];
      [ev |].
    apply H. left. ev.
  - destruct (Dimensions_nil_image heap1 (addr 4) params_blur11) as [_ H];
      [ev |].
    apply H; ev.
Defined.

Lemma Validate_then_Dimensions_bounded_witness :
  exists width height,
    Dimensions (addr 1) (addr 1) heap1 = Some ((width, height), heap1) /\
    width <= 6000 /\ height <= 5000.
Proof.
  apply (Validate_then_Dimensions_bounded heap1 (addr 1) (addr 1)
           params_native image_6000); ev.
Defined.

Lemma Dimensions_nonzero_witness :
  exists width height,
    Dimensions (addr 2) (addr 3) heap1 = Some ((width, height), heap1) /\
    width <> 0 /\ height <> 0.
Proof.
  apply (Dimensions_nonzero heap1 (addr 2) (addr 3) params_zero image_800);
    ev.
Defined.

Lemma GetParams_then_Validate_blur_witness :
  Validate (addr 5) (addr 3)
           (heap1_with (mkParams 300 300 true 11 false ".jpg"))
  = Some (Some ErrInvalidBlurAmount,
          heap1_with (mkParams 300 300 true 11 false ".jpg")).
Proof.
  destruct (GetParams_then_Validate_blur ascii_only req_blur11 heap1 (addr 5)
              (heap1_with (mkParams 300 300 true 11 false ".jpg"))
              (addr 3) image_800 300 300) as [[_ H] _];
    [ev | ev | ev | left; ev | left; ev |].
  apply H. split; [ev |].
  exists 11. split; [ev | right; ev].
Defined.

Lemma GetParams_then_Dimensions_witness :
  Dimensions (addr 5) (addr 3)
             (heap1_with (mkParams 0 0 false 0 false ".jpg"))
  = Some ((800, 600), heap1_with (mkParams 0 0 false 0 false ".jpg")).
Proof.
  apply (GetParams_then_Dimensions ascii_only req_size0 heap1 (addr 5)
           (heap1_with (mkParams 0 0 false 0 false ".jpg"))
           (addr 3) image_800 0 0); ev.
Defined.

Lemma GetParams_ignores_other_keys_witness :
  GetParams ascii_only req_size_more heap0 = GetParams ascii_only req_size heap0.
Proof.
  apply (GetParams_ignores_other_keys ascii_only (mux_Vars req_size)
           (URL_Query req_size) "id" "7" "hmac" ["x"] heap0);
    discriminate.
Defined.

Lemma getFileExtension_normal_form_witness :
  getFileExtension ascii_only
    (mkRequest (<["extension" := ".webp"]> ∅) ∅) = (".webp", None).
Proof.
  apply (getFileExtension_normal_form ascii_only req_size ".webp" ∅ ∅). ev.
Defined.


Lemma getFileExtension_case_insensitive_witness :
  getFileExtension ascii_only (mkRequest (<["extension" := ".WebP"]> ∅) ∅)
  = getFileExtension ascii_only (mkRequest (<["extension" := ".webp"]> ∅) ∅).
Proof.
  apply (getFileExtension_case_insensitive ascii_only ∅ ∅ ".WebP"). ev.
Defined.

Lemma getFileExtension_needs_dot_witness :
  ".JPG" = "" \/
  (exists t, ".JPG" = String "." t) /\
  String.length ".JPG" = String.length ".jpg".
Proof.
  apply (getFileExtension_needs_dot ascii_only ∅ ∅ ".JPG" ".jpg"); ev.
Defined.
